(** * Incorporating masks into calibrated science images

    A shallow embedding of the code cells of the notebook
    [08-05-incorporating-masks-into-calibrated-science-images.ipynb]:

    - the combination of the two static masks,
        [combined_mask = mask_ccdmask.data | mask_hot_pix.data];
    - the descriptive count [combined_mask.sum()];
    - the loop over the calibrated light frames, which detects cosmic rays,
      merges the masks, sets [ccd.mask] and writes the image back with
      [overwrite=True].

    The masks are two-dimensional numpy arrays of dtype bool, as CCD images
    are, so [|] is numpy's element-wise [bitwise_or], with numpy's
    broadcasting rule for operands whose shapes differ.  Python exceptions are
    modelled by an error result; the directory of FITS files and the standard
    output are threaded through the loop as an explicit state.  The detector
    [ccdproc.cosmicray_lacosmic] is a collaborator that the notebook calls
    and does not define: it is a parameter of the loop. *)

From stdpp Require Import gmap strings list fin_maps.

(** ** Python exceptions *)

Inductive exception : Type :=
  | ValueError         (* numpy: operands could not be broadcast together *)
  | TypeError          (* unsupported operand type(s) for |: 'NoneType' ... *)
  | OSError            (* astropy: the file exists and overwrite is False *)
  | FileNotFoundError. (* the file to read is not in the directory *)

Inductive result (A : Type) : Type :=
  | Ok (a : A)
  | Raise (e : exception).
Arguments Ok {A} a.
Arguments Raise {A} e.

#[global] Instance exception_eq_dec : EqDecision exception.
Proof. solve_decision. Defined.

#[global] Instance result_ret : MRet result := λ A a, Ok a.
#[global] Instance result_bind : MBind result := λ A B f m,
  match m with
  | Ok a => f a
  | Raise e => Raise e
  end.

(** ** Two-dimensional boolean numpy arrays *)

Module np.

(** An array carries its shape [(rows, columns)] and its cells, row by row
    (what [tolist()] returns). *)
Record ndarray : Type := array {
  shape : nat * nat;
  tolist : list (list bool)
}.

Definition nrows (a : ndarray) : nat := fst (shape a).
Definition ncols (a : ndarray) : nat := snd (shape a).

(** The cells agree with the shape: [rows] rows of [columns] cells each. *)
Definition is_grid (a : ndarray) : bool :=
  bool_decide (length (tolist a) = nrows a)
  && forallb (λ row, bool_decide (length row = ncols a)) (tolist a).

(** [a[i, j]] for indices inside the array (outside, where Python raises
    [IndexError], the value is [false] and is never used). *)
Definition item (a : ndarray) (i j : nat) : bool :=
  default false (tolist a !! i ≫= (.!! j)).

(** Builds the array of shape [(r, c)] whose cell [[i, j]] is [f i j]. *)
Definition fromfunction (r c : nat) (f : nat → nat → bool) : ndarray :=
  {| shape := (r, c);
     tolist := (λ i, f i <$> seq 0 c) <$> seq 0 r |}.

(** numpy's broadcasting rule for one axis: equal lengths, or one of them
    is 1 and is stretched to the other. *)
Definition broadcast_dim (m n : nat) : option nat :=
  if decide (m = n) then Some m
  else if decide (m = 1) then Some n
  else if decide (n = 1) then Some m
  else None.

(** Two shapes that numpy accepts together: along each axis the lengths
    are equal or one of them is 1. *)
Definition broadcastable (a b : ndarray) : Prop :=
  (nrows a = nrows b ∨ nrows a = 1 ∨ nrows b = 1) ∧
  (ncols a = ncols b ∨ ncols a = 1 ∨ ncols b = 1).

(** The index read in an operand along an axis of length [n]: an axis of
    length 1 is repeated. *)
Definition stretch (n i : nat) : nat := if decide (n = 1) then 0 else i.

Definition broadcast_item (a : ndarray) (i j : nat) : bool :=
  item a (stretch (nrows a) i) (stretch (ncols a) j).

(** [a | b] on boolean arrays. *)
Definition bitwise_or (a b : ndarray) : result ndarray :=
  match broadcast_dim (nrows a) (nrows b), broadcast_dim (ncols a) (ncols b) with
  | Some r, Some c =>
      Ok (fromfunction r c (λ i j, broadcast_item a i j || broadcast_item b i j))
  | _, _ => Raise ValueError
  end.

(** [np.array(rows).astype('bool')]: a nested list of numbers as a boolean
    array, nonzero meaning [True]. *)
Definition astype_bool (rows : list (list Z)) : ndarray :=
  {| shape := (length rows, length (hd [] rows));
     tolist := (λ row : list Z, (λ v : Z, bool_decide (v ≠ 0%Z)) <$> row) <$> rows |}.

(** [a.sum()] on a boolean array: the number of [True] cells. *)
Definition sum (a : ndarray) : nat :=
  sum_list ((λ row, length (filter (λ x : bool, x = true) row)) <$> tolist a).

End np.

Notation "a .| b" := (np.bitwise_or a b) (at level 50, left associativity).

(** [x | b] where [x] may be [None]: Python raises [TypeError].  The
    detector of ccdproc always attaches a mask to the image it returns, so
    the loop does not meet this case with it. *)
Definition or_optional (x : option np.ndarray) (b : np.ndarray) : result np.ndarray :=
  match x with
  | Some a => a .| b
  | None => Raise TypeError
  end.

(** ** Combining the static masks (the cell "Combining the masks") *)

Definition combined_mask_of (mask_ccdmask_data mask_hot_pix_data : np.ndarray)
  : result np.ndarray :=
  mask_ccdmask_data .| mask_hot_pix_data.

(** ** Images and the directory of reduced files *)

(** A [CCDData] object: the pixel values, the optional mask ([None] when the
    file has no mask extension) and the FITS header.  Pixel values and
    headers are never inspected by the notebook, so their types are left
    open. *)
Record CCDData (pixels header : Type) : Type := mkCCDData {
  data : pixels;
  mask : option np.ndarray;
  meta : header
}.
Arguments mkCCDData {pixels header} data mask meta.
Arguments data {pixels header} c.
Arguments mask {pixels header} c.
Arguments meta {pixels header} c.

(** [ccd.mask = m] *)
Definition set_mask {pixels header} (ccd : CCDData pixels header) (m : np.ndarray)
  : CCDData pixels header :=
  {| data := data ccd; mask := Some m; meta := meta ccd |}.

(** What the loop does that is visible from outside. *)
Inductive event (pixels header : Type) : Type :=
  | Printed (line : string)
  | Written (file_name : string) (ccd : CCDData pixels header) (overwrite : bool).
Arguments Printed {pixels header} line.
Arguments Written {pixels header} file_name ccd overwrite.

(** The state the loop runs in: the notebook variable [combined_mask], the
    files of the directory [ifc.location] by name, and the trace of printed
    lines and of calls of [ccd.write] (oldest first). *)
Record world (pixels header : Type) : Type := mkWorld {
  combined_mask : np.ndarray;
  files : gmap string (CCDData pixels header);
  trace : list (event pixels header)
}.
Arguments mkWorld {pixels header} combined_mask files trace.
Arguments combined_mask {pixels header} w.
Arguments files {pixels header} w.
Arguments trace {pixels header} w.

Section Notebook.
Context {pixels header : Type}.

#[local] Abbreviation CCD := (CCDData pixels header).
#[local] Abbreviation World := (world pixels header).

(** A computation returns a value or raises, and leaves a state in both
    cases: what was written before an exception stays written. *)
Definition M (A : Type) : Type := World → result A * World.

#[export] Instance M_ret : MRet M := λ A a w, (Ok a, w).
#[export] Instance M_bind : MBind M := λ A B f m w,
  match m w with
  | (Ok a, w') => f a w'
  | (Raise e, w') => (Raise e, w')
  end.

Definition lift {A} (r : result A) : M A := λ w, (r, w).

Definition log (e : event pixels header) : M unit := λ w,
  (Ok (), {| combined_mask := combined_mask w; files := files w;
             trace := trace w ++ [e] |}).

(** [print(line)] *)
Definition print (line : string) : M unit := log (Printed line).

(** Reading the global variable [combined_mask]. *)
Definition get_combined_mask : M np.ndarray := λ w, (Ok (combined_mask w), w).

(** The image that [ifc.ccds] reads for [file_name] when the loop reaches
    it. *)
Definition read (file_name : string) : M CCD := λ w,
  match files w !! file_name with
  | Some ccd => (Ok ccd, w)
  | None => (Raise FileNotFoundError, w)
  end.

(** [ccd.write(ifc.location / file_name, overwrite=...)]: astropy refuses
    to replace an existing file unless [overwrite] is true. *)
Definition replace_file (file_name : string) (ccd : CCD) (overwrite : bool) : M unit := λ w,
  if bool_decide (is_Some (files w !! file_name)) && negb overwrite
  then (Raise OSError, w)
  else (Ok (), {| combined_mask := combined_mask w;
                  files := <[file_name := ccd]> (files w);
                  trace := trace w |}).

Definition write (file_name : string) (ccd : CCD) (overwrite : bool) : M unit :=
  _ ← log (Written file_name ccd overwrite);
  replace_file file_name ccd overwrite.

(** Lines 164-169: the mask set on [ccd] from the mask of [new_ccd] and
    [combined_mask].
<<
    overall_mask = new_ccd.mask | combined_mask
    if ccd.mask is not None:
        ccd.mask = ccd.mask | overall_mask
    else:
        ccd.mask = overall_mask
>> *)
Definition update_mask (ccd new_ccd : CCD) (combined_mask : np.ndarray) : result CCD :=
  overall_mask ← or_optional (mask new_ccd) combined_mask;
  match mask ccd with
  | Some m =>
      m' ← m .| overall_mask;
      mret (set_mask ccd m')
  | None => mret (set_mask ccd overall_mask)
  end.

(** [ccdp.cosmicray_lacosmic(ccd, readnoise=10, sigclip=8, verbose=True)]:
    returns a new image, with cleaned pixel values and a mask, and leaves
    [ccd] as it is. *)
Variable cosmicray_lacosmic : CCD → CCD.

(** One iteration of the loop, for the file [file_name]. *)
Definition loop_body (file_name : string) : M unit :=
  ccd ← read file_name;
  _ ← print ("Working on file " +:+ file_name);
  let new_ccd := cosmicray_lacosmic ccd in
  combined_mask ← get_combined_mask;
  ccd ← lift (update_mask ccd new_ccd combined_mask);
  write file_name ccd true.

(** [for ccd, file_name in ifc.ccds(imagetyp='light', return_fname=True)],
    over the names of the light frames in the order the collection yields
    them. *)
Fixpoint for_loop (file_names : list string) : M unit :=
  match file_names with
  | [] => mret ()
  | file_name :: rest => _ ← loop_body file_name; for_loop rest
  end.

End Notebook.

(** The calls of [ccd.write] in a trace. *)
Definition writes {pixels header} (t : list (event pixels header))
  : list (string * CCDData pixels header * bool) :=
  omap (λ e, match e with
             | Written f c o => Some (f, c, o)
             | Printed _ => None
             end) t.

(** What one successful iteration for [file_name] adds to the trace: the
    status line and the call of [write]. *)
Definition body_events {pixels header} (file_name : string) (ccd : CCDData pixels header)
  : list (event pixels header) :=
  [Printed ("Working on file " +:+ file_name); Written file_name ccd true].

(** The fields of an image other than its mask. *)
Definition unmasked {pixels header} (ccd : CCDData pixels header) : pixels * header :=
  (data ccd, meta ccd).


(** A nested list of numbers with [k] numbers in each row. *)
Definition rectangular (k : nat) (rows : list (list Z)) : Prop :=
  Forall (λ row, length row = k) rows.

(** ** Sample data: the masks of a 2 x 2 detector and a small directory *)

Module sample.

Definition mask_ccdmask_data : np.ndarray := np.astype_bool [[0; 1]; [0; 0]]%Z.
Definition mask_hot_pix_data : np.ndarray := np.astype_bool [[0; 0]; [1; 0]]%Z.
Definition static_mask : np.ndarray := np.astype_bool [[0; 1]; [1; 0]]%Z.
Definition crmask : np.ndarray := np.astype_bool [[1; 0]; [0; 0]]%Z.
Definition old_mask : np.ndarray := np.astype_bool [[0; 0]; [0; 1]]%Z.

(** A mask of a single row, of shape [(1, 2)]. *)
Definition row_mask : np.ndarray := np.astype_bool [[1; 0]]%Z.
(** A mask of shape [(2, 3)]. *)
Definition wide_mask : np.ndarray := np.astype_bool [[0; 0; 1]; [0; 0; 0]]%Z.

Definition fits : Type := CCDData (list (list Z)) (list (string * string)).

Definition light (values : list (list Z)) (m : option np.ndarray) : fits :=
  {| data := values; mask := m; meta := [("imagetyp", "light")] |}.

(** A stand-in for the detector: pixels above 100 counts are flagged and
    replaced by 0 in the cleaned image. *)
Definition threshold_detector (ccd : fits) : fits :=
  {| data := (λ row : list Z, (λ v : Z, if bool_decide (100 < v)%Z then 0%Z else v) <$> row)
               <$> data ccd;
     mask := Some (np.astype_bool
               ((λ row : list Z, (λ v : Z, if bool_decide (100 < v)%Z then 1%Z else 0%Z) <$> row)
                  <$> data ccd));
     meta := meta ccd |}.

Definition image1 : fits := light [[500; 12]; [11; 13]]%Z None.
Definition image2 : fits := light [[10; 12]; [11; 13]]%Z (Some old_mask).

Definition directory : gmap string fits :=
  {[ "light-001.fit" := image1; "light-002.fit" := image2 ]}.

Definition session : world (list (list Z)) (list (string * string)) :=
  {| combined_mask := static_mask; files := directory; trace := [] |}.

Definition light_files : list string := ["light-001.fit"; "light-002.fit"].

End sample.

(** ** Facts about boolean arrays *)

Section ArrayFacts.
Import np.
Implicit Types (a b c : ndarray) (f g : nat → nat → bool).

Lemma shape_eta a : shape a = (nrows a, ncols a).
Proof. unfold nrows, ncols. by destruct (shape a). Qed.

Lemma stretch_lt n i : i < n → stretch n i = i.
Proof. unfold stretch. case_decide; lia. Qed.

Lemma broadcast_dim_same n : broadcast_dim n n = Some n.
Proof. unfold broadcast_dim. by rewrite decide_True. Qed.

Lemma broadcast_dim_comm m n : broadcast_dim m n = broadcast_dim n m.
Proof. unfold broadcast_dim. repeat case_decide; congruence. Qed.

Lemma broadcast_dim_absorb m n k :
  broadcast_dim m n = Some k → broadcast_dim k n = Some k.
Proof. unfold broadcast_dim. repeat case_decide; congruence. Qed.

Lemma item_fromfunction r k f i j :
  i < r → j < k → item (fromfunction r k f) i j = f i j.
Proof.
  intros Hi Hj. unfold item, fromfunction; simpl.
  rewrite list_lookup_fmap, lookup_seq_lt by done; simpl.
  by rewrite list_lookup_fmap, lookup_seq_lt.
Qed.

Lemma fromfunction_ext r k f g :
  (∀ i j, i < r → j < k → f i j = g i j) →
  fromfunction r k f = fromfunction r k g.
Proof.
  intros Hfg. unfold fromfunction. f_equal.
  apply list_eq; intros i. rewrite !list_lookup_fmap.
  destruct (seq 0 r !! i) as [i'|] eqn:Hi; [|done]; simpl.
  apply lookup_seq in Hi as [-> Hi]. f_equal.
  apply list_eq; intros j. rewrite !list_lookup_fmap.
  destruct (seq 0 k !! j) as [j'|] eqn:Hj; [|done]; simpl.
  apply lookup_seq in Hj as [-> Hj]. f_equal. by apply Hfg.
Qed.

Lemma is_grid_spec a :
  is_grid a = true ↔
  length (tolist a) = nrows a ∧ Forall (λ row, length row = ncols a) (tolist a).
Proof.
  unfold is_grid. rewrite andb_true_iff, forallb_forall, Forall_forall.
  rewrite bool_decide_eq_true. split; intros [H1 H2]; split; try done.
  - intros row Hrow. apply list_elem_of_In in Hrow.
    apply H2 in Hrow. by apply bool_decide_eq_true in Hrow.
  - intros row Hrow. apply list_elem_of_In in Hrow.
    apply bool_decide_eq_true. by apply H2.
Qed.

Lemma is_grid_fromfunction r k f : is_grid (fromfunction r k f) = true.
Proof.
  apply is_grid_spec; simpl. split.
  - by rewrite length_fmap, length_seq.
  - apply Forall_fmap, Forall_forall. intros i _; simpl.
    by rewrite length_fmap, length_seq.
Qed.

(** A grid is determined by its shape and its cells. *)
Lemma grid_fromfunction a :
  is_grid a = true → a = fromfunction (nrows a) (ncols a) (item a).
Proof.
  intros [Hlen Hrows]%is_grid_spec. destruct a as [[r c] rows]; simpl in *.
  unfold fromfunction; f_equal. unfold nrows, ncols in *; simpl in *.
  apply list_eq; intros i. rewrite list_lookup_fmap.
  destruct (decide (i < r)) as [Hi|Hi].
  - rewrite lookup_seq_lt by done; simpl.
    destruct (lookup_lt_is_Some_2 rows i) as [row Hrow]; [lia|].
    rewrite Hrow. f_equal.
    assert (length row = c) as Hc.
    { eapply Forall_lookup_1 in Hrows; eauto. }
    apply list_eq; intros j. rewrite list_lookup_fmap.
    destruct (decide (j < c)) as [Hj|Hj].
    + rewrite lookup_seq_lt by done; simpl. unfold item; simpl. rewrite Hrow; simpl.
      destruct (lookup_lt_is_Some_2 row j) as [x Hx]; [lia|]. by rewrite Hx.
    + rewrite lookup_seq_ge by lia; simpl. apply lookup_ge_None; lia.
  - rewrite lookup_seq_ge by lia; simpl. apply lookup_ge_None; lia.
Qed.

Lemma bitwise_or_same_shape a b :
  shape a = shape b →
  a .| b = Ok (fromfunction (nrows a) (ncols a) (λ i j, item a i j || item b i j)).
Proof.
  intros Hs. unfold bitwise_or, nrows, ncols. rewrite <- Hs.
  rewrite !broadcast_dim_same. f_equal.
  apply fromfunction_ext; intros i j Hi Hj.
  unfold broadcast_item, nrows, ncols. rewrite <- Hs.
  by rewrite !stretch_lt.
Qed.

Lemma bitwise_or_inv a b c :
  a .| b = Ok c →
  broadcast_dim (nrows a) (nrows b) = Some (nrows c) ∧
  broadcast_dim (ncols a) (ncols b) = Some (ncols c) ∧
  c = fromfunction (nrows c) (ncols c)
        (λ i j, broadcast_item a i j || broadcast_item b i j).
Proof.
  unfold bitwise_or. intros H.
  destruct (broadcast_dim (nrows a) (nrows b)) as [r|]; [|done].
  destruct (broadcast_dim (ncols a) (ncols b)) as [k|]; [|done].
  by injection H as <-.
Qed.

Lemma bitwise_or_is_grid a b c : a .| b = Ok c → is_grid c = true.
Proof.
  intros (_ & _ & ->)%bitwise_or_inv. apply is_grid_fromfunction.
Qed.

Lemma bitwise_or_comm a b : a .| b = b .| a.
Proof.
  unfold bitwise_or.
  rewrite (broadcast_dim_comm (nrows a)), (broadcast_dim_comm (ncols a)).
  destruct (broadcast_dim (nrows b) (nrows a)) as [r|]; [|done].
  destruct (broadcast_dim (ncols b) (ncols a)) as [k|]; [|done].
  f_equal. apply fromfunction_ext; intros. apply orb_comm.
Qed.

(** Merging [b] into an array that already contains it changes nothing. *)
Lemma bitwise_or_absorb a b c : a .| b = Ok c → c .| b = Ok c.
Proof.
  intros (Hr & Hc & Hfun)%bitwise_or_inv.
  unfold bitwise_or.
  rewrite (broadcast_dim_absorb _ _ _ Hr), (broadcast_dim_absorb _ _ _ Hc).
  rewrite Hfun at 3. f_equal.
  apply fromfunction_ext; intros i j Hi Hj.
  unfold broadcast_item at 1. rewrite !stretch_lt by done.
  rewrite Hfun at 1. rewrite item_fromfunction by done.
  by rewrite <- orb_assoc, orb_diag.
Qed.

Lemma bitwise_or_diag a : is_grid a = true → a .| a = Ok a.
Proof.
  intros Hg. rewrite bitwise_or_same_shape by done. f_equal.
  etrans; [|symmetry; by apply grid_fromfunction].
  apply fromfunction_ext; intros. apply orb_diag.
Qed.

Lemma count_true_mono (u v : nat → bool) (l : list nat) :
  (∀ j, j ∈ l → u j = true → v j = true) →
  length (filter (λ x : bool, x = true) (u <$> l))
  ≤ length (filter (λ x : bool, x = true) (v <$> l)).
Proof.
  induction l as [|j l IH]; intros Huv; [done|].
  rewrite !fmap_cons, !filter_cons.
  assert (u j = true → v j = true) as Hj by (apply Huv; left).
  assert (length (filter (λ x : bool, x = true) (u <$> l))
          ≤ length (filter (λ x : bool, x = true) (v <$> l))) as Hl.
  { apply IH. intros j' Hj'. apply Huv. by right. }
  repeat case_decide; simpl; try lia. naive_solver.
Qed.

Lemma sum_list_mono (F G : nat → nat) (l : list nat) :
  (∀ i, i ∈ l → F i ≤ G i) → sum_list (F <$> l) ≤ sum_list (G <$> l).
Proof.
  induction l as [|i l IH]; intros HFG; [done|].
  rewrite !fmap_cons; simpl.
  assert (F i ≤ G i) by (apply HFG; left).
  assert (sum_list (F <$> l) ≤ sum_list (G <$> l)).
  { apply IH. intros i' Hi'. apply HFG. by right. }
  lia.
Qed.

Lemma sum_fromfunction_mono r k f g :
  (∀ i j, i < r → j < k → f i j = true → g i j = true) →
  sum (fromfunction r k f) ≤ sum (fromfunction r k g).
Proof.
  intros Hfg. unfold sum, fromfunction; simpl.
  rewrite <- !list_fmap_compose.
  apply sum_list_mono. intros i [_ Hi]%elem_of_seq; simpl.
  apply count_true_mono. intros j [_ Hj]%elem_of_seq.
  apply Hfg; lia.
Qed.

Lemma bitwise_or_sum_l a b c :
  is_grid a = true → shape a = shape b → a .| b = Ok c → sum a ≤ sum c.
Proof.
  intros Hg Hs. rewrite bitwise_or_same_shape by done. intros [= <-].
  rewrite (grid_fromfunction a Hg) at 1.
  apply sum_fromfunction_mono. intros i j _ _ ->. done.
Qed.

End ArrayFacts.

(** ** The combined static mask *)

Example combined_mask_sample :
  combined_mask_of sample.mask_ccdmask_data sample.mask_hot_pix_data
  = Ok sample.static_mask.
Proof. reflexivity. Qed.

(** C1: for two boolean arrays of the same shape the combined static mask is
    a grid of that shape, and it is true at a cell [[i, j]] exactly when one
    of the two masks is true there. *)
Theorem combined_mask_elementwise_or (A B : np.ndarray) :
  np.shape A = np.shape B →
  ∃ C, combined_mask_of A B = Ok C ∧
       np.is_grid C = true ∧ np.shape C = np.shape A ∧
       ∀ i j, i < np.nrows A → j < np.ncols A →
         (np.item C i j = true ↔ np.item A i j = true ∨ np.item B i j = true).
Proof.
  intros Hs. unfold combined_mask_of. rewrite bitwise_or_same_shape by done.
  eexists; split; [done|]. split; [apply is_grid_fromfunction|].
  split; [by rewrite (shape_eta A)|].
  intros i j Hi Hj. rewrite item_fromfunction by done. apply orb_true_iff.
Qed.

Lemma combined_mask_elementwise_or_witness :
  ∃ C, combined_mask_of sample.mask_ccdmask_data sample.mask_hot_pix_data = Ok C ∧
       np.is_grid C = true ∧ np.shape C = np.shape sample.mask_ccdmask_data ∧
       ∀ i j, i < np.nrows sample.mask_ccdmask_data →
              j < np.ncols sample.mask_ccdmask_data →
         (np.item C i j = true ↔
          np.item sample.mask_ccdmask_data i j = true ∨
          np.item sample.mask_hot_pix_data i j = true).
Proof.
  apply (combined_mask_elementwise_or sample.mask_ccdmask_data sample.mask_hot_pix_data).
  reflexivity.
Defined.

(** C7: on arrays of the same shape the combination is commutative and
    associative, and the nested combinations return a grid. *)
Theorem combined_mask_comm_assoc (A B C : np.ndarray) :
  np.shape A = np.shape B → np.shape B = np.shape C →
  combined_mask_of A B = combined_mask_of B A ∧
  (combined_mask_of B C ≫= combined_mask_of A)
  = (combined_mask_of A B ≫= λ AB, combined_mask_of AB C) ∧
  ∃ D, (combined_mask_of A B ≫= λ AB, combined_mask_of AB C) = Ok D.
Proof.
  intros HAB HBC. unfold combined_mask_of. split; [apply bitwise_or_comm|].
  rewrite (bitwise_or_same_shape B C), (bitwise_or_same_shape A B) by done.
  unfold mbind, result_bind.
  rewrite !bitwise_or_same_shape.
  - split; [|by eexists]. f_equal. simpl.
    replace (np.nrows A) with (np.nrows B) by (unfold np.nrows; congruence).
    replace (np.ncols A) with (np.ncols B) by (unfold np.ncols; congruence).
    apply fromfunction_ext; intros i j Hi Hj.
    rewrite !item_fromfunction by done. apply orb_assoc.
  - simpl. rewrite <- shape_eta. congruence.
  - simpl. rewrite <- shape_eta. congruence.
Qed.

Lemma combined_mask_comm_assoc_witness :
  combined_mask_of sample.mask_ccdmask_data sample.mask_hot_pix_data
  = combined_mask_of sample.mask_hot_pix_data sample.mask_ccdmask_data ∧
  (combined_mask_of sample.mask_hot_pix_data sample.crmask
     ≫= combined_mask_of sample.mask_ccdmask_data)
  = (combined_mask_of sample.mask_ccdmask_data sample.mask_hot_pix_data
     ≫= λ AB, combined_mask_of AB sample.crmask) ∧
  ∃ D, (combined_mask_of sample.mask_ccdmask_data sample.mask_hot_pix_data
        ≫= λ AB, combined_mask_of AB sample.crmask) = Ok D.
Proof.
  apply (combined_mask_comm_assoc
           sample.mask_ccdmask_data sample.mask_hot_pix_data sample.crmask);
    reflexivity.
Defined.

(** C4, as the claim states it, fails: masks of shapes [(1, 2)] and
    [(2, 2)] differ in shape, yet their combination returns a grid. *)
Lemma combined_mask_differing_shapes_returns :
  np.is_grid sample.row_mask = true ∧ np.is_grid sample.static_mask = true ∧
  np.shape sample.row_mask ≠ np.shape sample.static_mask ∧
  combined_mask_of sample.row_mask sample.static_mask
  = Ok (np.astype_bool [[1; 1]; [1; 0]]%Z).
Proof. repeat split; try reflexivity. discriminate. Qed.

Example combined_mask_incompatible_sample :
  combined_mask_of sample.static_mask sample.wide_mask = Raise ValueError.
Proof. reflexivity. Qed.

(** C4, amended: the combination of two masks raises [ValueError] exactly
    when their shapes are not broadcast-compatible (along some axis the
    lengths differ and neither is 1); for every other pair it returns a
    grid, which along each axis has the length of [B] where [A] has length 1
    and the length of [A] elsewhere. *)
Theorem combined_mask_shape_mismatch (A B : np.ndarray) :
  (combined_mask_of A B = Raise ValueError ↔ ¬ np.broadcastable A B) ∧
  ((∃ C, combined_mask_of A B = Ok C ∧ np.is_grid C = true ∧
         np.nrows C = (if decide (np.nrows A = 1) then np.nrows B else np.nrows A) ∧
         np.ncols C = (if decide (np.ncols A = 1) then np.ncols B else np.ncols A))
   ↔ np.broadcastable A B).
Proof.
  unfold combined_mask_of, np.broadcastable, np.bitwise_or, np.broadcast_dim.
  split; split.
  - intros H. repeat case_decide; try discriminate H; lia.
  - intros Hn. repeat case_decide; try done; exfalso; apply Hn; lia.
  - intros (C & HC & _). repeat case_decide; try discriminate HC; lia.
  - intros Hb.
    repeat case_decide; try lia;
      (eexists; split; [reflexivity|]; split; [apply is_grid_fromfunction|];
       unfold np.nrows, np.ncols in *; simpl; lia).
Qed.

(** ** The loop over the light frames *)

Section LoopFacts.
Context {pixels header : Type}.
Variable cosmicray_lacosmic : CCDData pixels header → CCDData pixels header.

#[local] Abbreviation CCD := (CCDData pixels header).
#[local] Abbreviation World := (world pixels header).
Implicit Types (ccd new_ccd : CCD) (w : World) (f : string).

Lemma update_mask_inv ccd new_ccd cm ccd' :
  update_mask ccd new_ccd cm = Ok ccd' →
  ∃ cr overall final,
    mask new_ccd = Some cr ∧ cr .| cm = Ok overall ∧
    ccd' = set_mask ccd final ∧
    match mask ccd with
    | Some m => m .| overall = Ok final
    | None => final = overall
    end.
Proof.
  unfold update_mask, or_optional. destruct (mask new_ccd) as [cr|]; [|done].
  simpl. destruct (cr .| cm) as [overall|] eqn:Ho; [|done]. simpl.
  destruct (mask ccd) as [m|] eqn:Hm.
  - destruct (m .| overall) as [final|] eqn:Hf; [|done]. simpl.
    intros [= <-]. by exists cr, overall, final.
  - intros [= <-]. by exists cr, overall, overall.
Qed.

Lemma update_mask_raises ccd new_ccd cm e :
  update_mask ccd new_ccd cm = Raise e → e = ValueError ∨ e = TypeError.
Proof.
  unfold update_mask, or_optional, np.bitwise_or.
  repeat (case_match; simpl); intros [=]; auto.
Qed.

Lemma update_mask_same_shape ccd new_ccd cm cr :
  mask new_ccd = Some cr →
  np.shape cr = np.shape cm →
  (∀ m, mask ccd = Some m → np.shape m = np.shape cm) →
  ∃ ccd', update_mask ccd new_ccd cm = Ok ccd'.
Proof.
  intros Hcr Hs Hm. unfold update_mask, or_optional. rewrite Hcr.
  rewrite bitwise_or_same_shape by done. simpl.
  destruct (mask ccd) as [m|]; [|by eexists].
  rewrite bitwise_or_same_shape; [by eexists|].
  simpl. rewrite <- shape_eta, (Hm m); done.
Qed.

Lemma loop_body_unfold f w :
  loop_body cosmicray_lacosmic f w =
  match files w !! f with
  | None => (Raise FileNotFoundError, w)
  | Some ccd =>
      match update_mask ccd (cosmicray_lacosmic ccd) (combined_mask w) with
      | Ok ccd' =>
          (Ok (), {| combined_mask := combined_mask w;
                     files := <[f := ccd']> (files w);
                     trace := trace w ++ body_events f ccd' |})
      | Raise e =>
          (Raise e, {| combined_mask := combined_mask w;
                       files := files w;
                       trace := trace w ++ [Printed ("Working on file " +:+ f)] |})
      end
  end.
Proof.
  unfold loop_body, read, mbind, M_bind.
  destruct (files w !! f) as [ccd|]; [|done].
  unfold print, log, get_combined_mask, lift; simpl.
  destruct (update_mask _ _ _) as [ccd'|e]; [|done].
  unfold write, replace_file, log, mbind, M_bind; simpl.
  rewrite andb_false_r. by rewrite <- app_assoc.
Qed.

Lemma update_mask_unmasked ccd new_ccd cm ccd' :
  update_mask ccd new_ccd cm = Ok ccd' → unmasked ccd' = unmasked ccd.
Proof. by intros (cr & overall & final & _ & _ & -> & _)%update_mask_inv. Qed.

(** What holds of every run of the loop, whether it returns or raises. *)
Lemma for_loop_frame fs w r w' :
  for_loop cosmicray_lacosmic fs w = (r, w') →
  combined_mask w' = combined_mask w ∧
  (∀ f, unmasked <$> files w' !! f = unmasked <$> files w !! f) ∧
  r ≠ Raise OSError ∧
  ∃ t, trace w' = trace w ++ t ∧
       ∀ f c o, (f, c, o) ∈ writes t →
         o = true ∧ ∃ ccd, files w !! f = Some ccd ∧ unmasked c = unmasked ccd.
Proof.
  revert w. induction fs as [|f0 fs IH]; intros w; simpl.
  - intros [= <- <-]. repeat split; [done|]. exists []. rewrite app_nil_r.
    split; [done|]. intros f c o Hin. by apply elem_of_nil in Hin.
  - unfold mbind, M_bind. rewrite loop_body_unfold.
    destruct (files w !! f0) as [ccd|] eqn:Hf0.
    2:{ intros [= <- <-]. repeat split; [done|]. exists []. rewrite app_nil_r.
        split; [done|]. intros f c o Hin. by apply elem_of_nil in Hin. }
    destruct (update_mask _ _ _) as [ccd'|e] eqn:Hupd.
    2:{ intros [= <- <-]; simpl. repeat split.
        - intros [= ->]. apply update_mask_raises in Hupd as [?|?]; done.
        - eexists; split; [done|]. intros f c o Hin. by apply elem_of_nil in Hin. }
    intros Hrun. apply IH in Hrun as (Hcm & Hfiles & Hr & t & Ht & Hw); simpl in *.
    pose proof (update_mask_unmasked _ _ _ _ Hupd) as Hun.
    assert (∀ f, unmasked <$> <[f0:=ccd']> (files w) !! f = unmasked <$> files w !! f)
      as Hins.
    { intros f. destruct (decide (f0 = f)) as [<-|Hne].
      - rewrite lookup_insert_eq, Hf0. simpl. by rewrite Hun.
      - by rewrite lookup_insert_ne. }
    repeat split; [done| |done|].
    { intros f. by rewrite Hfiles, Hins. }
    exists (body_events f0 ccd' ++ t). split; [by rewrite Ht, app_assoc|].
    intros f c o Hin. unfold writes in Hin. rewrite omap_app in Hin. simpl in Hin.
    apply elem_of_cons in Hin as [[= -> -> ->]|Hin].
    { split; [done|]. by exists ccd. }
    fold (writes t) in Hin.
    destruct (Hw f c o Hin) as (-> & ccd1 & Hccd1 & Hc). split; [done|].
    specialize (Hins f). rewrite Hccd1 in Hins. simpl in Hins.
    destruct (files w !! f) as [ccd0|]; [|done].
    simpl in Hins. exists ccd0. split; [done|]. congruence.
Qed.

(** What a run that returns has done to each file, when no name occurs
    twice in the listing. *)
Lemma for_loop_ok fs w w' :
  NoDup fs →
  for_loop cosmicray_lacosmic fs w = (Ok (), w') →
  (∀ f, f ∉ fs → files w' !! f = files w !! f) ∧
  (∀ f, f ∈ fs →
     ∃ ccd ccd', files w !! f = Some ccd ∧
       update_mask ccd (cosmicray_lacosmic ccd) (combined_mask w) = Ok ccd' ∧
       files w' !! f = Some ccd').
Proof.
  intros Hnd. revert w. induction Hnd as [|f0 fs Hf0 Hnd IH]; intros w; simpl.
  - intros [= <-]. split; [done|]. intros f Hin. by apply elem_of_nil in Hin.
  - unfold mbind, M_bind. rewrite loop_body_unfold.
    destruct (files w !! f0) as [ccd|] eqn:Hread; [|done].
    destruct (update_mask _ _ _) as [ccd'|e] eqn:Hupd; [|done].
    intros Hrun. apply IH in Hrun as [Hout Hin]; simpl in *. split.
    + intros f Hf. apply not_elem_of_cons in Hf as [Hne Hf].
      by rewrite Hout, lookup_insert_ne.
    + intros f [->|Hf]%elem_of_cons.
      * exists ccd, ccd'. repeat split; [done..|].
        by rewrite Hout, lookup_insert_eq.
      * destruct (Hin f Hf) as (c & c' & Hc & Hu & Hc').
        assert (f0 ≠ f) by congruence.
        rewrite lookup_insert_ne in Hc by done. by exists c, c'.
Qed.

(** The loop returns when every listed file is there and its masks can be
    merged. *)
Lemma for_loop_returns fs w :
  NoDup fs →
  (∀ f, f ∈ fs →
     ∃ ccd ccd', files w !! f = Some ccd ∧
       update_mask ccd (cosmicray_lacosmic ccd) (combined_mask w) = Ok ccd') →
  ∃ w', for_loop cosmicray_lacosmic fs w = (Ok (), w').
Proof.
  intros Hnd. revert w. induction Hnd as [|f0 fs Hf0 Hnd IH]; intros w Hall; simpl.
  - by eexists.
  - unfold mbind, M_bind. rewrite loop_body_unfold.
    destruct (Hall f0) as (ccd & ccd' & -> & ->); [by left|].
    apply IH; simpl. intros f Hf.
    destruct (Hall f) as (c & c' & Hc & Hu); [by right|].
    assert (f0 ≠ f) by congruence.
    exists c, c'. by rewrite lookup_insert_ne.
Qed.

Lemma update_mask_idempotent ccd new_ccd new_ccd' cm ccd' :
  update_mask ccd new_ccd cm = Ok ccd' →
  mask new_ccd' = mask new_ccd →
  update_mask ccd' new_ccd' cm = Ok ccd'.
Proof.
  intros (cr & overall & final & Hcr & Ho & -> & Hfinal)%update_mask_inv Hsame.
  unfold update_mask, or_optional. rewrite Hsame, Hcr, Ho. simpl.
  destruct (mask ccd) as [m|].
  - by rewrite (bitwise_or_absorb _ _ _ Hfinal).
  - subst final. rewrite bitwise_or_diag; [done|].
    by eapply bitwise_or_is_grid.
Qed.

Lemma update_mask_detector_mask ccd new_ccd new_ccd' cm :
  mask new_ccd' = mask new_ccd →
  update_mask ccd new_ccd' cm = update_mask ccd new_ccd cm.
Proof. unfold update_mask. by intros ->. Qed.

(** Cells of a pre-existing mask that are true are true in the merged
    mask. *)
Lemma bitwise_or_keeps_true m overall final i j :
  m .| overall = Ok final →
  i < np.nrows m → j < np.ncols m → i < np.nrows final → j < np.ncols final →
  np.item m i j = true → np.item final i j = true.
Proof.
  intros (_ & _ & ->)%bitwise_or_inv Hi Hj Hi' Hj' Hm. simpl in *.
  rewrite item_fromfunction by done.
  unfold np.broadcast_item at 1. rewrite !stretch_lt by done. by rewrite Hm.
Qed.

End LoopFacts.

(** The loop uses the image returned by the detector through its mask
    only. *)
Lemma for_loop_detector_mask {pixels header}
    (detector detector' : CCDData pixels header → CCDData pixels header) fs w :
  (∀ c, mask (detector' c) = mask (detector c)) →
  for_loop detector' fs w = for_loop detector fs w.
Proof.
  intros Hmask. revert w. induction fs as [|f0 fs IH]; intros w; [done|].
  simpl. unfold mbind, M_bind. rewrite !loop_body_unfold.
  destruct (files w !! f0) as [ccd|]; [|done].
  rewrite (update_mask_detector_mask ccd (detector ccd) (detector' ccd))
    by apply Hmask.
  destruct (update_mask _ _ _); [apply IH|done].
Qed.

(** ** What the loop guarantees *)

Example final_mask_existing_mask_sample :
  update_mask sample.image2 (sample.light [] (Some (np.astype_bool [[0; 0]; [0; 0]]%Z)))
    sample.static_mask
  = Ok (set_mask sample.image2 (np.astype_bool [[0; 1]; [1; 1]]%Z)).
Proof. reflexivity. Qed.

Section LoopClaims.
Context {pixels header : Type}.
Variable cosmicray_lacosmic : CCDData pixels header → CCDData pixels header.
Implicit Types (ccd new_ccd : CCDData pixels header) (w : world pixels header).

(** C2: in a listing without repeated names, after a run of the loop that
    returns, the file of every listed image holds the mask
    [ccd.mask | (new_ccd.mask | combined_mask)] if the image had a mask and
    [new_ccd.mask | combined_mask] if it had none; the loop does return when
    every listed file is there and its masks have the shape of
    [combined_mask].  With the static mask [[0,1],[1,0]], the cosmic-ray
    mask [[1,0],[0,0]] and no mask on the image, the mask set is
    [[1,1],[1,0]]. *)
Theorem for_loop_final_mask (fs : list string) w :
  NoDup fs →
  (∀ w', for_loop cosmicray_lacosmic fs w = (Ok (), w') →
     ∀ f ccd, f ∈ fs → files w !! f = Some ccd →
       ∃ cr overall_mask final ccd',
         mask (cosmicray_lacosmic ccd) = Some cr ∧
         cr .| combined_mask w = Ok overall_mask ∧
         match mask ccd with
         | Some m => m .| overall_mask = Ok final
         | None => final = overall_mask
         end ∧
         files w' !! f = Some ccd' ∧ mask ccd' = Some final) ∧
  ((∀ f, f ∈ fs →
      ∃ ccd cr, files w !! f = Some ccd ∧
        mask (cosmicray_lacosmic ccd) = Some cr ∧
        np.shape cr = np.shape (combined_mask w) ∧
        ∀ m, mask ccd = Some m → np.shape m = np.shape (combined_mask w)) →
   ∃ w', for_loop cosmicray_lacosmic fs w = (Ok (), w')) ∧
  (∀ ccd new_ccd, mask ccd = None → mask new_ccd = Some sample.crmask →
     update_mask ccd new_ccd sample.static_mask
     = Ok (set_mask ccd (np.astype_bool [[1; 1]; [1; 0]]%Z))).
Proof.
  intros Hnd. split; [|split].
  - intros w' Hrun f ccd Hf Hccd.
    destruct (for_loop_ok _ _ _ _ Hnd Hrun) as [_ Hin].
    destruct (Hin f Hf) as (c & ccd' & Hc & Hupd & Hw').
    assert (c = ccd) as -> by congruence.
    apply update_mask_inv in Hupd as (cr & overall & final & Hcr & Ho & -> & Hfin).
    by exists cr, overall, final, (set_mask ccd final).
  - intros Hall. apply for_loop_returns; [done|].
    intros f Hf. destruct (Hall f Hf) as (ccd & cr & Hccd & Hcr & Hs & Hm).
    destruct (update_mask_same_shape ccd _ _ cr Hcr Hs Hm) as [ccd' Hupd].
    by exists ccd, ccd'.
  - intros ccd new_ccd Hnone Hcr. unfold update_mask. by rewrite Hcr, Hnone.
Qed.

(** C3: every call of [write] that the loop makes passes [overwrite=True]
    and targets the file the image was read from, so the loop never stops
    on a refused overwrite; and a call of [write] without the flag on a
    file that exists raises [OSError] and leaves the directory as it
    was. *)
Theorem write_overwrite_explicit (fs : list string) w r w'
    (f : string) ccd w0 :
  for_loop cosmicray_lacosmic fs w = (r, w') →
  is_Some (files w0 !! f) →
  (∃ t, trace w' = trace w ++ t ∧
        ∀ g c o, (g, c, o) ∈ writes t → o = true ∧ is_Some (files w !! g)) ∧
  r ≠ Raise OSError ∧
  (∃ w1, write f ccd false w0 = (Raise OSError, w1) ∧ files w1 = files w0) ∧
  (∃ w1, write f ccd true w0 = (Ok (), w1) ∧ files w1 !! f = Some ccd).
Proof.
  intros Hrun Hex.
  apply for_loop_frame in Hrun as (_ & _ & Hr & t & Ht & Hw).
  repeat split; [|done|..].
  - exists t. split; [done|]. intros g c o Hin.
    destruct (Hw g c o Hin) as (-> & c0 & Hc0 & _). by rewrite Hc0.
  - unfold write, replace_file, log, mbind, M_bind; simpl.
    rewrite bool_decide_true by done. by eexists.
  - unfold write, replace_file, log, mbind, M_bind; simpl.
    rewrite andb_false_r. eexists; split; [done|]. simpl.
    apply lookup_insert_eq.
Qed.

(** C6: merging a pre-existing mask with a newly computed mask of the same
    shape, as the loop does in [ccd.mask | overall_mask], gives a mask
    whose number of true pixels is at least that of each of the two, hence
    at least their maximum. *)
Theorem merged_mask_sum_monotone (existing overall_mask : np.ndarray) :
  np.is_grid existing = true → np.is_grid overall_mask = true →
  np.shape existing = np.shape overall_mask →
  ∃ merged, existing .| overall_mask = Ok merged ∧
    np.sum existing ≤ np.sum merged ∧
    np.sum overall_mask ≤ np.sum merged ∧
    np.sum existing `max` np.sum overall_mask ≤ np.sum merged ∧
    ∀ ccd new_ccd cm,
      mask ccd = Some existing →
      or_optional (mask new_ccd) cm = Ok overall_mask →
      update_mask ccd new_ccd cm = Ok (set_mask ccd merged).
Proof.
  intros Hg1 Hg2 Hs.
  destruct (existing .| overall_mask) as [merged|] eqn:Hor.
  2:{ by rewrite bitwise_or_same_shape in Hor. }
  exists merged. split; [done|].
  assert (np.sum existing ≤ np.sum merged) by by eapply bitwise_or_sum_l.
  assert (np.sum overall_mask ≤ np.sum merged).
  { rewrite bitwise_or_comm in Hor. by eapply bitwise_or_sum_l. }
  repeat split; [done|done|lia|].
  intros ccd new_ccd cm Hm Ho. unfold update_mask. rewrite Ho; simpl.
  by rewrite Hm, Hor.
Qed.

(** C8: running the loop again on the files it has written, with the
    detector returning the same cosmic-ray masks, returns and leaves every
    file as the first run wrote it; and every pixel that was true in the
    mask an image had before the first run is true in the mask written. *)
Theorem for_loop_idempotent (fs : list string) w w1 :
  NoDup fs →
  for_loop cosmicray_lacosmic fs w = (Ok (), w1) →
  (∀ f ccd ccd', f ∈ fs → files w !! f = Some ccd → files w1 !! f = Some ccd' →
     mask (cosmicray_lacosmic ccd') = mask (cosmicray_lacosmic ccd)) →
  (∃ w2, for_loop cosmicray_lacosmic fs w1 = (Ok (), w2) ∧ files w2 = files w1) ∧
  (∀ f ccd m, f ∈ fs → files w !! f = Some ccd → mask ccd = Some m →
     ∃ ccd' final, files w1 !! f = Some ccd' ∧ mask ccd' = Some final ∧
       ∀ i j, i < np.nrows m → j < np.ncols m →
              i < np.nrows final → j < np.ncols final →
              np.item m i j = true → np.item final i j = true).
Proof.
  intros Hnd Hrun Hsame.
  destruct (for_loop_ok _ _ _ _ Hnd Hrun) as [Hout Hin].
  apply for_loop_frame in Hrun as Hframe. destruct Hframe as (Hcm & _).
  assert (∀ f, f ∈ fs → ∃ ccd', files w1 !! f = Some ccd' ∧
            update_mask ccd' (cosmicray_lacosmic ccd') (combined_mask w1) = Ok ccd')
    as Hagain.
  { intros f Hf. destruct (Hin f Hf) as (ccd & ccd' & Hccd & Hupd & Hccd').
    exists ccd'. split; [done|]. rewrite Hcm.
    eapply update_mask_idempotent; [done|]. by eapply Hsame. }
  split.
  - destruct (for_loop_returns cosmicray_lacosmic fs w1 Hnd) as [w2 Hrun2].
    { intros f Hf. destruct (Hagain f Hf) as (ccd' & ? & ?). by exists ccd', ccd'. }
    exists w2. split; [done|].
    destruct (for_loop_ok _ _ _ _ Hnd Hrun2) as [Hout2 Hin2].
    apply map_eq; intros f. destruct (decide (f ∈ fs)) as [Hf|Hf].
    + destruct (Hin2 f Hf) as (c & c' & Hc & Hupd & Hc').
      destruct (Hagain f Hf) as (c0 & Hc0 & Hupd0). congruence.
    + by apply Hout2.
  - intros f ccd m Hf Hccd Hm.
    destruct (Hin f Hf) as (c & ccd' & Hc & Hupd & Hccd').
    assert (c = ccd) as -> by congruence.
    apply update_mask_inv in Hupd as (cr & overall & final & _ & _ & -> & Hfin).
    rewrite Hm in Hfin.
    exists (set_mask ccd final), final. repeat split; [done|].
    intros i j. by eapply bitwise_or_keeps_true.
Qed.

(** C10: whatever the loop does, the pixel values and the header of every
    file, and of every image handed to [write], are those the file had
    before the loop, [combined_mask] is unchanged, and a detector that
    returns other cleaned pixel values with the same masks leads to the
    same run. *)
Theorem for_loop_keeps_pixels (fs : list string) w r w' :
  for_loop cosmicray_lacosmic fs w = (r, w') →
  combined_mask w' = combined_mask w ∧
  (∀ f, data <$> files w' !! f = data <$> files w !! f) ∧
  (∀ f, meta <$> files w' !! f = meta <$> files w !! f) ∧
  (∃ t, trace w' = trace w ++ t ∧
        ∀ f c o, (f, c, o) ∈ writes t →
          ∃ ccd, files w !! f = Some ccd ∧ data c = data ccd ∧ meta c = meta ccd) ∧
  (∀ detector : CCDData pixels header → CCDData pixels header,
     (∀ c, mask (detector c) = mask (cosmicray_lacosmic c)) →
     for_loop detector fs w = (r, w')).
Proof.
  intros Hrun.
  apply for_loop_frame in Hrun as Hframe.
  destruct Hframe as (Hcm & Hfiles & _ & t & Ht & Hw).
  split; [done|]. split; [|split; [|split]].
  - intros f. specialize (Hfiles f).
    destruct (files w' !! f), (files w !! f); unfold unmasked in *; simpl in *;
      congruence.
  - intros f. specialize (Hfiles f).
    destruct (files w' !! f), (files w !! f); unfold unmasked in *; simpl in *;
      congruence.
  - exists t. split; [done|]. intros f c o Hin.
    destruct (Hw f c o Hin) as (_ & ccd & Hccd & Hun).
    exists ccd. unfold unmasked in Hun. split; [done|]. split; congruence.
  - intros detector Hmask. rewrite <- Hrun. by apply for_loop_detector_mask.
Qed.

End LoopClaims.

(** ** The theorems at the sample directory *)

Lemma sample_light_files_NoDup : NoDup sample.light_files.
Proof.
  apply NoDup_cons. split; [|apply NoDup_singleton].
  intros Hin%list_elem_of_singleton. discriminate Hin.
Qed.

Lemma sample_run_pair :
  for_loop sample.threshold_detector sample.light_files sample.session
  = ((for_loop sample.threshold_detector sample.light_files sample.session).1,
     (for_loop sample.threshold_detector sample.light_files sample.session).2).
Proof. apply surjective_pairing. Qed.

Lemma for_loop_final_mask_witness :
  ∃ w', for_loop sample.threshold_detector sample.light_files sample.session
        = (Ok (), w') ∧
    (files w' !! "light-001.fit" ≫= mask) = Some (np.astype_bool [[1; 1]; [1; 0]]%Z) ∧
    (files w' !! "light-002.fit" ≫= mask) = Some (np.astype_bool [[0; 1]; [1; 1]]%Z).
Proof.
  destruct (for_loop_final_mask sample.threshold_detector sample.light_files
              sample.session sample_light_files_NoDup) as (Hmask & Hret & _).
  destruct Hret as [w' Hrun].
  { intros f Hf. apply elem_of_cons in Hf as [->|Hf].
    - exists sample.image1, sample.crmask. repeat split; try reflexivity.
      intros m Hm. discriminate Hm.
    - apply list_elem_of_singleton in Hf as ->.
      exists sample.image2, (np.astype_bool [[0; 0]; [0; 0]]%Z).
      repeat split; try reflexivity.
      intros m Hm. injection Hm as <-. reflexivity. }
  exists w'. split; [exact Hrun|]. split.
  - destruct (Hmask w' Hrun "light-001.fit" sample.image1)
      as (cr & overall & final & ccd' & Hcr & Ho & Hfin & -> & Hm).
    { left. } { reflexivity. }
    injection Hcr as <-. injection Ho as <-. simpl in Hfin. subst final.
    exact Hm.
  - destruct (Hmask w' Hrun "light-002.fit" sample.image2)
      as (cr & overall & final & ccd' & Hcr & Ho & Hfin & -> & Hm).
    { right. left. } { reflexivity. }
    injection Hcr as <-. injection Ho as <-. injection Hfin as <-.
    exact Hm.
Defined.

Lemma write_overwrite_explicit_witness :
  (∃ t, trace (for_loop sample.threshold_detector sample.light_files sample.session).2
        = trace sample.session ++ t ∧
        ∀ g c o, (g, c, o) ∈ writes t →
          o = true ∧ is_Some (files sample.session !! g)) ∧
  (for_loop sample.threshold_detector sample.light_files sample.session).1
    ≠ Raise OSError ∧
  (∃ w1, write "light-001.fit" sample.image2 false sample.session = (Raise OSError, w1) ∧
         files w1 = files sample.session) ∧
  (∃ w1, write "light-001.fit" sample.image2 true sample.session = (Ok (), w1) ∧
         files w1 !! "light-001.fit" = Some sample.image2).
Proof.
  apply (write_overwrite_explicit sample.threshold_detector sample.light_files
           sample.session _ _ "light-001.fit" sample.image2 sample.session).
  - apply sample_run_pair.
  - exists sample.image1. vm_compute. reflexivity.
Defined.

Lemma merged_mask_sum_monotone_witness :
  ∃ merged, sample.old_mask .| np.astype_bool [[1; 1]; [1; 0]]%Z = Ok merged ∧
    np.sum sample.old_mask ≤ np.sum merged ∧
    np.sum (np.astype_bool [[1; 1]; [1; 0]]%Z) ≤ np.sum merged ∧
    np.sum sample.old_mask `max` np.sum (np.astype_bool [[1; 1]; [1; 0]]%Z)
      ≤ np.sum merged ∧
    ∀ (ccd new_ccd : sample.fits) cm,
      mask ccd = Some sample.old_mask →
      or_optional (mask new_ccd) cm = Ok (np.astype_bool [[1; 1]; [1; 0]]%Z) →
      update_mask ccd new_ccd cm = Ok (set_mask ccd merged).
Proof.
  apply (merged_mask_sum_monotone (pixels := list (list Z))
           (header := list (string * string))
           sample.old_mask (np.astype_bool [[1; 1]; [1; 0]]%Z)); reflexivity.
Defined.

Lemma for_loop_idempotent_witness :
  (∃ w2, for_loop sample.threshold_detector sample.light_files
           (for_loop sample.threshold_detector sample.light_files sample.session).2
         = (Ok (), w2) ∧
         files w2
         = files (for_loop sample.threshold_detector sample.light_files sample.session).2) ∧
  (∀ f ccd m, f ∈ sample.light_files → files sample.session !! f = Some ccd →
     mask ccd = Some m →
     ∃ ccd' final,
       files (for_loop sample.threshold_detector sample.light_files sample.session).2 !! f
       = Some ccd' ∧ mask ccd' = Some final ∧
       ∀ i j, i < np.nrows m → j < np.ncols m →
              i < np.nrows final → j < np.ncols final →
              np.item m i j = true → np.item final i j = true).
Proof.
  apply (for_loop_idempotent sample.threshold_detector sample.light_files sample.session).
  - apply sample_light_files_NoDup.
  - vm_compute. reflexivity.
  - intros f ccd ccd' Hf Hccd Hccd'. apply elem_of_cons in Hf as [->|Hf].
    + vm_compute in Hccd, Hccd'. injection Hccd as <-. injection Hccd' as <-.
      reflexivity.
    + apply list_elem_of_singleton in Hf as ->.
      vm_compute in Hccd, Hccd'. injection Hccd as <-. injection Hccd' as <-.
      reflexivity.
Defined.

Lemma for_loop_keeps_pixels_witness :
  combined_mask (for_loop sample.threshold_detector sample.light_files sample.session).2
  = combined_mask sample.session ∧
  (∀ f, data <$> files (for_loop sample.threshold_detector sample.light_files
                          sample.session).2 !! f
        = data <$> files sample.session !! f) ∧
  (∀ f, meta <$> files (for_loop sample.threshold_detector sample.light_files
                          sample.session).2 !! f
        = meta <$> files sample.session !! f) ∧
  (∃ t, trace (for_loop sample.threshold_detector sample.light_files sample.session).2
        = trace sample.session ++ t ∧
        ∀ f c o, (f, c, o) ∈ writes t →
          ∃ ccd, files sample.session !! f = Some ccd ∧
                 data c = data ccd ∧ meta c = meta ccd) ∧
  (∀ detector : sample.fits → sample.fits,
     (∀ c, mask (detector c) = mask (sample.threshold_detector c)) →
     for_loop detector sample.light_files sample.session
     = ((for_loop sample.threshold_detector sample.light_files sample.session).1,
        (for_loop sample.threshold_detector sample.light_files sample.session).2)).
Proof.
  apply (for_loop_keeps_pixels sample.threshold_detector sample.light_files
           sample.session).
  apply sample_run_pair.
Defined.

(** ** Further facts about [|] and [sum()] *)

Section BroadcastFacts.
Import np.
Implicit Types (a b c : ndarray).

Lemma broadcast_dim_assoc m n p :
  (broadcast_dim m n ≫= λ k, broadcast_dim k p)
  = (broadcast_dim n p ≫= broadcast_dim m).
Proof.
  unfold broadcast_dim.
  repeat (case_decide; simpl; try congruence; try lia).
Qed.

Lemma stretch_broadcast_l m n k i :
  broadcast_dim m n = Some k → stretch m (stretch k i) = stretch m i.
Proof. unfold broadcast_dim, stretch. repeat case_decide; congruence. Qed.

Lemma stretch_broadcast_r m n k i :
  broadcast_dim m n = Some k → stretch n (stretch k i) = stretch n i.
Proof. unfold broadcast_dim, stretch. repeat case_decide; congruence. Qed.

Lemma stretch_broadcast_lt k p r i :
  broadcast_dim k p = Some r → i < r → stretch k i < k.
Proof.
  unfold broadcast_dim, stretch. repeat case_decide; intros [= <-]; lia.
Qed.

Lemma bitwise_or_raises a b e :
  a .| b = Raise e →
  e = ValueError ∧
  (broadcast_dim (nrows a) (nrows b) = None ∨ broadcast_dim (ncols a) (ncols b) = None).
Proof.
  unfold bitwise_or.
  destruct (broadcast_dim (nrows a) (nrows b)), (broadcast_dim (ncols a) (ncols b));
    intros [=]; auto.
Qed.

(** A cell of [a | b], read as an operand of a further [|]. *)
Lemma broadcast_item_or a b ab p q r k i j :
  a .| b = Ok ab →
  broadcast_dim (nrows ab) p = Some r → broadcast_dim (ncols ab) q = Some k →
  i < r → j < k →
  broadcast_item ab i j = (broadcast_item a i j || broadcast_item b i j).
Proof.
  intros (Hr & Hc & Hab)%bitwise_or_inv Hp Hq Hi Hj.
  unfold broadcast_item at 1.
  assert (stretch (nrows ab) i < nrows ab) as Hi'
    by (eapply stretch_broadcast_lt; eauto).
  assert (stretch (ncols ab) j < ncols ab) as Hj'
    by (eapply stretch_broadcast_lt; eauto).
  remember (stretch (nrows ab) i) as x eqn:Ex.
  remember (stretch (ncols ab) j) as y eqn:Ey.
  rewrite Hab, item_fromfunction by done. subst x y.
  unfold broadcast_item.
  by rewrite (stretch_broadcast_l _ _ _ _ Hr), (stretch_broadcast_l _ _ _ _ Hc),
    (stretch_broadcast_r _ _ _ _ Hr), (stretch_broadcast_r _ _ _ _ Hc).
Qed.

End BroadcastFacts.

(** X1: for arrays of any shapes, [a | b] is [b | a] and [(a | b) | c] is
    [a | (b | c)]: the nestings return the same array, or both raise
    [ValueError].  The order in which the loop merges the masks of an image
    does not matter, also when numpy broadcasts. *)
Theorem bitwise_or_comm_assoc_any_shape (a b c : np.ndarray) :
  a .| b = b .| a ∧
  (a .| b ≫= λ ab, ab .| c) = (b .| c ≫= λ bc, a .| bc).
Proof.
  split; [apply bitwise_or_comm|].
  pose proof (broadcast_dim_assoc (np.nrows a) (np.nrows b) (np.nrows c)) as Hrows.
  pose proof (broadcast_dim_assoc (np.ncols a) (np.ncols b) (np.ncols c)) as Hcols.
  destruct (a .| b) as [ab|e1] eqn:Hab, (b .| c) as [bc|e2] eqn:Hbc; simpl.
  - pose proof Hab as (Hr1 & Hc1 & _)%bitwise_or_inv.
    pose proof Hbc as (Hr2 & Hc2 & _)%bitwise_or_inv.
    rewrite Hr1, Hr2 in Hrows. rewrite Hc1, Hc2 in Hcols. simpl in *.
    unfold np.bitwise_or. rewrite Hrows, Hcols.
    destruct (np.broadcast_dim (np.nrows a) (np.nrows bc)) as [r|] eqn:Hr; [|done].
    destruct (np.broadcast_dim (np.ncols a) (np.ncols bc)) as [k|] eqn:Hk; [|done].
    f_equal. apply fromfunction_ext; intros i j Hi Hj.
    rewrite (broadcast_item_or a b ab _ _ r k) by done.
    assert (np.broadcast_dim (np.nrows bc) (np.nrows a) = Some r) as Hr'
      by by rewrite broadcast_dim_comm.
    assert (np.broadcast_dim (np.ncols bc) (np.ncols a) = Some k) as Hk'
      by by rewrite broadcast_dim_comm.
    rewrite (broadcast_item_or b c bc _ _ r k) by done.
    by rewrite orb_assoc.
  - apply bitwise_or_raises in Hbc as [-> Hnone].
    pose proof Hab as (Hr1 & Hc1 & _)%bitwise_or_inv.
    rewrite Hr1 in Hrows. rewrite Hc1 in Hcols. simpl in *.
    unfold np.bitwise_or. rewrite Hrows, Hcols.
    destruct Hnone as [-> | ->]; simpl; [done|].
    by destruct (np.broadcast_dim (np.nrows b) (np.nrows c) ≫= _).
  - apply bitwise_or_raises in Hab as [-> Hnone].
    pose proof Hbc as (Hr2 & Hc2 & _)%bitwise_or_inv.
    rewrite Hr2 in Hrows. rewrite Hc2 in Hcols. simpl in *.
    unfold np.bitwise_or. rewrite <- Hrows, <- Hcols.
    destruct Hnone as [-> | ->]; simpl; [done|].
    by destruct (np.broadcast_dim (np.nrows a) (np.nrows b) ≫= _).
  - apply bitwise_or_raises in Hab as [-> _].
    by apply bitwise_or_raises in Hbc as [-> _].
Qed.

Section SumFacts.
Import np.
Implicit Types (a b c : ndarray) (f g : nat → nat → bool).

Lemma count_true_or (u v : nat → bool) (l : list nat) :
  length (filter (λ x : bool, x = true) ((λ j, u j || v j) <$> l))
  ≤ length (filter (λ x : bool, x = true) (u <$> l))
    + length (filter (λ x : bool, x = true) (v <$> l)).
Proof.
  induction l as [|j l IH]; [done|].
  rewrite !fmap_cons, !filter_cons.
  destruct (u j), (v j); simpl; repeat case_decide; simpl; try done; lia.
Qed.

Lemma sum_list_le_add (F G H : nat → nat) (l : list nat) :
  (∀ i, i ∈ l → F i ≤ G i + H i) →
  sum_list (F <$> l) ≤ sum_list (G <$> l) + sum_list (H <$> l).
Proof.
  induction l as [|i l IH]; intros Hle; [done|].
  rewrite !fmap_cons; simpl.
  assert (F i ≤ G i + H i) by (apply Hle; left).
  assert (sum_list (F <$> l) ≤ sum_list (G <$> l) + sum_list (H <$> l)).
  { apply IH. intros i' Hi'. apply Hle. by right. }
  lia.
Qed.

Lemma sum_fromfunction_or r k f g :
  sum (fromfunction r k (λ i j, f i j || g i j))
  ≤ sum (fromfunction r k f) + sum (fromfunction r k g).
Proof.
  unfold sum, fromfunction; simpl. rewrite <- !list_fmap_compose.
  apply sum_list_le_add. intros i _; simpl. apply count_true_or.
Qed.

Lemma sum_fromfunction_le r k f : sum (fromfunction r k f) ≤ r * k.
Proof.
  unfold sum, fromfunction; simpl. rewrite <- list_fmap_compose.
  transitivity (sum_list ((λ _ : nat, k) <$> seq 0 r)).
  - apply sum_list_mono. intros i _; simpl.
    etrans; [apply length_filter|]. by rewrite length_fmap, length_seq.
  - by rewrite sum_list_fmap_const, length_seq.
Qed.

End SumFacts.

(** X2: for two grids of one shape, the count [(a | b).sum()] is at most the
    sum of the counts of [a] and [b], and at most the number of pixels. *)
Theorem combined_mask_sum_bounds (a b : np.ndarray) :
  np.is_grid a = true → np.is_grid b = true → np.shape a = np.shape b →
  ∃ c, combined_mask_of a b = Ok c ∧
       np.sum c ≤ np.sum a + np.sum b ∧
       np.sum c ≤ np.nrows a * np.ncols a.
Proof.
  intros Ha Hb Hs. unfold combined_mask_of.
  rewrite bitwise_or_same_shape by done. eexists; split; [done|]. split.
  - etrans; [apply sum_fromfunction_or|].
    assert (np.nrows a = np.nrows b) as Hr by (unfold np.nrows; congruence).
    assert (np.ncols a = np.ncols b) as Hc by (unfold np.ncols; congruence).
    rewrite <- (grid_fromfunction a Ha). rewrite Hr, Hc.
    by rewrite <- (grid_fromfunction b Hb).
  - apply sum_fromfunction_le.
Qed.

Lemma combined_mask_sum_bounds_witness :
  ∃ c, combined_mask_of sample.mask_ccdmask_data sample.crmask = Ok c ∧
       np.sum c ≤ np.sum sample.mask_ccdmask_data + np.sum sample.crmask ∧
       np.sum c ≤ np.nrows sample.mask_ccdmask_data * np.ncols sample.mask_ccdmask_data.
Proof.
  apply (combined_mask_sum_bounds sample.mask_ccdmask_data sample.crmask);
    reflexivity.
Defined.

(** ** The static masks as read from their files *)

Lemma astype_bool_item (rows : list (list Z)) i j v :
  rows !! i ≫= (.!! j) = Some v →
  np.item (np.astype_bool rows) i j = bool_decide (v ≠ 0%Z).
Proof.
  intros Hv. unfold np.item, np.astype_bool; simpl.
  rewrite list_lookup_fmap.
  destruct (rows !! i) as [row|]; [|done]. simpl in *.
  rewrite list_lookup_fmap, Hv. done.
Qed.

Lemma astype_bool_is_grid k (rows : list (list Z)) :
  rectangular k rows → np.is_grid (np.astype_bool rows) = true.
Proof.
  intros Hrect. apply is_grid_spec. unfold np.astype_bool, np.nrows, np.ncols; simpl.
  split; [by rewrite length_fmap|].
  apply Forall_fmap. destruct Hrect as [|row rows Hrow Hrows]; [done|].
  simpl. constructor.
  - simpl. by rewrite length_fmap.
  - eapply Forall_impl; [exact Hrows|]. intros r Hr. simpl.
    rewrite length_fmap. congruence.
Qed.

Lemma astype_bool_shape k (rows : list (list Z)) i j v :
  rectangular k rows → rows !! i ≫= (.!! j) = Some v →
  np.shape (np.astype_bool rows) = (length rows, k) ∧ i < length rows ∧ j < k.
Proof.
  intros Hrect Hv. destruct (rows !! i) as [row|] eqn:Hrow; [|done]. simpl in Hv.
  assert (length row = k) as Hk by (eapply Forall_lookup_1 in Hrect; eauto).
  apply lookup_lt_Some in Hrow as Hi. apply lookup_lt_Some in Hv as Hj.
  repeat split; [|done|lia].
  unfold np.astype_bool; simpl. f_equal.
  destruct Hrect as [|r0 rows' Hr0 _]; [simpl in Hi; lia|done].
Qed.

(** X3: the two static masks are read as grids of numbers and converted
    with [astype('bool')] before they are combined.  For two rectangular
    grids of the same dimensions the combined mask is a grid, and it is true
    at a cell exactly when the number there is nonzero in one of the two
    files. *)
Theorem combined_mask_of_files (k : nat) (ccdmask_rows hot_pix_rows : list (list Z)) :
  rectangular k ccdmask_rows → rectangular k hot_pix_rows →
  length ccdmask_rows = length hot_pix_rows →
  ∃ c, combined_mask_of (np.astype_bool ccdmask_rows) (np.astype_bool hot_pix_rows) = Ok c ∧
    np.is_grid c = true ∧
    np.shape c = np.shape (np.astype_bool ccdmask_rows) ∧
    ∀ i j va vb,
      ccdmask_rows !! i ≫= (.!! j) = Some va →
      hot_pix_rows !! i ≫= (.!! j) = Some vb →
      (np.item c i j = true ↔ va ≠ 0%Z ∨ vb ≠ 0%Z).
Proof.
  intros Ha Hb Hlen.
  assert (np.shape (np.astype_bool ccdmask_rows)
          = np.shape (np.astype_bool hot_pix_rows)) as Hs.
  { unfold np.astype_bool; simpl. rewrite Hlen. f_equal.
    destruct Ha as [|ra ? Hra _], Hb as [|rb ? Hrb _]; simpl in *; try done.
    congruence. }
  unfold combined_mask_of. rewrite bitwise_or_same_shape by done.
  eexists; split; [done|]. split; [apply is_grid_fromfunction|].
  split; [simpl; by rewrite <- shape_eta|].
  intros i j va vb Hva Hvb.
  destruct (astype_bool_shape k _ i j va Ha Hva) as (Hshape & Hi & Hj).
  rewrite item_fromfunction
    by (unfold np.nrows, np.ncols; rewrite Hshape; simpl; done).
  rewrite (astype_bool_item _ _ _ _ Hva), (astype_bool_item _ _ _ _ Hvb).
  rewrite orb_true_iff, !bool_decide_eq_true. done.
Qed.

Lemma combined_mask_of_files_witness :
  ∃ c, combined_mask_of (np.astype_bool [[0; 1]; [0; 0]]%Z)
                        (np.astype_bool [[0; 0]; [7; 0]]%Z) = Ok c ∧
    np.is_grid c = true ∧
    np.shape c = np.shape (np.astype_bool [[0; 1]; [0; 0]]%Z) ∧
    ∀ i j va vb,
      [[0; 1]; [0; 0]]%Z !! i ≫= (.!! j) = Some va →
      [[0; 0]; [7; 0]]%Z !! i ≫= (.!! j) = Some vb →
      (np.item c i j = true ↔ va ≠ 0%Z ∨ vb ≠ 0%Z).
Proof.
  apply (combined_mask_of_files 2 [[0; 1]; [0; 0]]%Z [[0; 0]; [7; 0]]%Z).
  - repeat constructor.
  - repeat constructor.
  - reflexivity.
Defined.

(** ** Further facts about the loop *)

Section LoopExtras.
Context {pixels header : Type}.
Variable cosmicray_lacosmic : CCDData pixels header → CCDData pixels header.
Implicit Types (ccd new_ccd : CCDData pixels header) (w : world pixels header).
Implicit Types (f g : string) (fs : list string).

Lemma for_loop_unlisted fs w r w' f :
  for_loop cosmicray_lacosmic fs w = (r, w') →
  f ∉ fs → files w' !! f = files w !! f.
Proof.
  revert w. induction fs as [|f0 fs IH]; intros w; simpl.
  - by intros [= <- <-].
  - unfold mbind, M_bind. rewrite loop_body_unfold.
    intros Hrun [Hne Hf]%not_elem_of_cons.
    destruct (files w !! f0) as [ccd|] eqn:Hf0; [|by injection Hrun as <- <-].
    destruct (update_mask _ _ _) as [ccd'|e]; [|by injection Hrun as <- <-].
    rewrite (IH _ Hrun Hf). simpl. by rewrite lookup_insert_ne.
Qed.

(** X4: whatever the outcome of the loop, a file that is not in the listing
    (a mask file, a calibration frame) is left exactly as it was, and the
    directory has the same file names after the loop as before: the loop
    creates no file and removes none. *)
Theorem for_loop_leaves_other_files fs w r w' :
  for_loop cosmicray_lacosmic fs w = (r, w') →
  (∀ f, f ∉ fs → files w' !! f = files w !! f) ∧
  dom (files w') = dom (files w).
Proof.
  intros Hrun. split.
  - intros f Hf. by eapply for_loop_unlisted.
  - apply for_loop_frame in Hrun as (_ & Hfiles & _).
    apply set_eq. intros f. rewrite !elem_of_dom.
    specialize (Hfiles f). rewrite <- !not_eq_None_Some.
    destruct (files w' !! f), (files w !! f); simpl in *; done.
Qed.




(** X8: when the cosmic-ray mask and the mask of the image, if it has one,
    have the shape of [combined_mask], the mask set on the image is a grid
    of that shape, and a pixel is masked in it exactly when it is masked in
    the image's previous mask, in the cosmic-ray mask or in
    [combined_mask]. *)
Theorem update_mask_pixelwise ccd new_ccd (cm cr : np.ndarray) :
  mask new_ccd = Some cr →
  np.shape cr = np.shape cm →
  (∀ m, mask ccd = Some m → np.shape m = np.shape cm) →
  ∃ final, update_mask ccd new_ccd cm = Ok (set_mask ccd final) ∧
    np.is_grid final = true ∧ np.shape final = np.shape cm ∧
    ∀ i j, i < np.nrows cm → j < np.ncols cm →
      np.item final i j
      = from_option (λ m, np.item m i j) false (mask ccd)
        || (np.item cr i j || np.item cm i j).
Proof.
  intros Hcr Hs Hm. unfold update_mask, or_optional. rewrite Hcr.
  assert (np.nrows cr = np.nrows cm ∧ np.ncols cr = np.ncols cm) as [Hr Hc]
    by (unfold np.nrows, np.ncols; by rewrite Hs).
  rewrite bitwise_or_same_shape by done. simpl. rewrite Hr, Hc.
  destruct (mask ccd) as [m|]; simpl.
  - specialize (Hm m eq_refl).
    assert (np.nrows m = np.nrows cm ∧ np.ncols m = np.ncols cm) as [Hr' Hc']
      by (unfold np.nrows, np.ncols; by rewrite Hm).
    rewrite bitwise_or_same_shape by (simpl; by rewrite Hm, <- shape_eta).
    simpl. rewrite Hr', Hc'. eexists; split; [done|].
    split; [apply is_grid_fromfunction|]. split; [simpl; by rewrite <- shape_eta|].
    intros i j Hi Hj. by rewrite !item_fromfunction.
  - eexists; split; [done|].
    split; [apply is_grid_fromfunction|]. split; [simpl; by rewrite <- shape_eta|].
    intros i j Hi Hj. by rewrite item_fromfunction.
Qed.

(** X9: the directory that the loop leaves does not depend on the order in
    which the collection yields the files: if the loop returns on a listing
    without repeated names, it returns on every reordering of it, with the
    same files and the same [combined_mask]. *)
Theorem for_loop_order_irrelevant fs fs' w w1 :
  NoDup fs → fs ≡ₚ fs' →
  for_loop cosmicray_lacosmic fs w = (Ok (), w1) →
  ∃ w2, for_loop cosmicray_lacosmic fs' w = (Ok (), w2) ∧
        files w2 = files w1 ∧ combined_mask w2 = combined_mask w1.
Proof.
  intros Hnd Hperm Hrun.
  assert (NoDup fs') as Hnd' by by rewrite <- Hperm.
  destruct (for_loop_ok _ _ _ _ Hnd Hrun) as [Hout Hin].
  destruct (for_loop_returns cosmicray_lacosmic fs' w Hnd') as [w2 Hrun2].
  { intros f Hf. rewrite <- Hperm in Hf.
    destruct (Hin f Hf) as (ccd & ccd' & ? & ? & _). by exists ccd, ccd'. }
  exists w2. split; [done|].
  destruct (for_loop_ok _ _ _ _ Hnd' Hrun2) as [Hout2 Hin2].
  split.
  - apply map_eq; intros f. destruct (decide (f ∈ fs)) as [Hf|Hf].
    + destruct (Hin f Hf) as (c & c' & Hc & Hu & ->).
      rewrite Hperm in Hf.
      destruct (Hin2 f Hf) as (d & d' & Hd & Hu2 & ->). congruence.
    + rewrite Hout by done. apply Hout2. by rewrite <- Hperm.
  - apply for_loop_frame in Hrun as (-> & _).
    by apply for_loop_frame in Hrun2 as (-> & _).
Qed.

(** X10: after a run that returns, every listed file has a mask, and that
    mask is a well-formed grid, whatever the masks it was merged from. *)
Theorem for_loop_written_masks_are_grids fs w w' f :
  NoDup fs →
  for_loop cosmicray_lacosmic fs w = (Ok (), w') →
  f ∈ fs →
  ∃ ccd' m, files w' !! f = Some ccd' ∧ mask ccd' = Some m ∧ np.is_grid m = true.
Proof.
  intros Hnd Hrun Hf.
  destruct (for_loop_ok _ _ _ _ Hnd Hrun) as [_ Hin].
  destruct (Hin f Hf) as (ccd & ccd' & _ & Hupd & Hccd').
  apply update_mask_inv in Hupd as (cr & overall & final & _ & Ho & -> & Hfin).
  exists (set_mask ccd final), final. repeat split; [done|].
  destruct (mask ccd) as [m|].
  - by eapply bitwise_or_is_grid.
  - subst final. by eapply bitwise_or_is_grid.
Qed.

End LoopExtras.

(** ** The further facts at the sample directory *)

Lemma for_loop_leaves_other_files_witness :
  (∀ f, f ∉ ["light-001.fit"] →
     files (for_loop sample.threshold_detector ["light-001.fit"] sample.session).2 !! f
     = files sample.session !! f) ∧
  dom (files (for_loop sample.threshold_detector ["light-001.fit"] sample.session).2)
  = dom (files sample.session).
Proof.
  apply (for_loop_leaves_other_files sample.threshold_detector ["light-001.fit"]
           sample.session
           (for_loop sample.threshold_detector ["light-001.fit"] sample.session).1).
  apply surjective_pairing.
Defined.




Lemma update_mask_pixelwise_witness :
  ∃ final,
    update_mask sample.image2 (sample.threshold_detector sample.image2) sample.static_mask
    = Ok (set_mask sample.image2 final) ∧
    np.is_grid final = true ∧ np.shape final = np.shape sample.static_mask ∧
    ∀ i j, i < np.nrows sample.static_mask → j < np.ncols sample.static_mask →
      np.item final i j
      = from_option (λ m, np.item m i j) false (mask sample.image2)
        || (np.item (np.astype_bool [[0; 0]; [0; 0]]%Z) i j
            || np.item sample.static_mask i j).
Proof.
  apply (update_mask_pixelwise sample.image2 (sample.threshold_detector sample.image2)
           sample.static_mask (np.astype_bool [[0; 0]; [0; 0]]%Z)).
  - reflexivity.
  - reflexivity.
  - intros m Hm. injection Hm as <-. reflexivity.
Defined.

Lemma for_loop_order_irrelevant_witness :
  ∃ w2, for_loop sample.threshold_detector ["light-002.fit"; "light-001.fit"]
          sample.session = (Ok (), w2) ∧
        files w2
        = files (for_loop sample.threshold_detector sample.light_files sample.session).2 ∧
        combined_mask w2
        = combined_mask
            (for_loop sample.threshold_detector sample.light_files sample.session).2.
Proof.
  apply (for_loop_order_irrelevant sample.threshold_detector sample.light_files
           ["light-002.fit"; "light-001.fit"] sample.session).
  - apply sample_light_files_NoDup.
  - apply Permutation_swap.
  - vm_compute. reflexivity.
Defined.

Lemma for_loop_written_masks_are_grids_witness :
  ∃ ccd' m,
    files (for_loop sample.threshold_detector sample.light_files sample.session).2
      !! "light-001.fit" = Some ccd' ∧
    mask ccd' = Some m ∧ np.is_grid m = true.
Proof.
  apply (for_loop_written_masks_are_grids sample.threshold_detector sample.light_files
           sample.session _ "light-001.fit").
  - apply sample_light_files_NoDup.
  - vm_compute. reflexivity.
  - left.
Defined.

(** ** Which exception for which cause *)



